(** * Round-trip translation (src/rtt.py)

    A shallow embedding of [rtt.py]: the supported-language set
    [LT_LANGUAGES], the abstract base class [RoundTripTranslator] and its
    LibreTranslate backend [LibreTranslateRTT], followed by the properties
    of the constructor and of [rtt]. *)

From Stdlib Require Import Ascii String.
From stdpp Require Import base strings list gmap.

Local Open Scope string_scope.

(** ** Python strings

    [str] values are modelled as [string]; the operations below are the
    ones the module's only f-string relies on. *)

Module PyStr.

(** [sep.join(l)]. *)
Fixpoint join (sep : string) (l : list string) : string :=
  match l with
  | [] => ""
  | [x] => x
  | x :: rest => x +:+ sep +:+ join sep rest
  end.

(** [c in s] for a one-character [c]. *)
Fixpoint has_char (c : ascii) (s : string) : bool :=
  match s with
  | EmptyString => false
  | String d s' => if Ascii.eqb c d then true else has_char c s'
  end.

Definition hex_digit (n : N) : ascii :=
  match n with
  | 0 => "0" | 1 => "1" | 2 => "2" | 3 => "3" | 4 => "4" | 5 => "5"
  | 6 => "6" | 7 => "7" | 8 => "8" | 9 => "9" | 10 => "a" | 11 => "b"
  | 12 => "c" | 13 => "d" | 14 => "e" | _ => "f"
  end%N%char.

Definition squote : ascii := Ascii.ascii_of_N 39.
Definition dquote : ascii := Ascii.ascii_of_N 34.
Definition backslash : ascii := Ascii.ascii_of_N 92.

(** One character of [repr(s)], given the enclosing quote: the quote and
    the backslash are escaped, tab, newline and carriage return get their
    letter escapes, the other control characters a [\xhh] escape. Bytes
    from 128 up belong to printable non-ASCII text and stay as they are. *)
Definition repr_char (quote c : ascii) : string :=
  let n := N_of_ascii c in
  if Ascii.eqb c quote || Ascii.eqb c backslash then String backslash (String c "")
  else if (n =? 9)%N then String backslash "t"
  else if (n =? 10)%N then String backslash "n"
  else if (n =? 13)%N then String backslash "r"
  else if (n <? 32)%N || (n =? 127)%N
       then String backslash (String "x"%char
              (String (hex_digit (n / 16)) (String (hex_digit (n mod 16)) "")))
  else String c "".

Fixpoint repr_body (quote : ascii) (s : string) : string :=
  match s with
  | EmptyString => ""
  | String c s' => repr_char quote c +:+ repr_body quote s'
  end.

(** [repr(s)] of a [str]: single quotes, unless the text holds a single
    quote and no double quote. *)
Definition repr (s : string) : string :=
  let quote := if has_char squote s && negb (has_char dquote s)
               then dquote else squote in
  String quote (repr_body quote s +:+ String quote "").

(** [repr] of a [set] of strings that iterates in the order [items]. *)
Definition repr_set (items : list string) : string :=
  match items with
  | [] => "set()"
  | _ => "{" +:+ join ", " (map repr items) +:+ "}"
  end.

(** [sub in s]: [sub] occurs in [s] as a contiguous piece. *)
Definition contains (sub s : string) : Prop :=
  ∃ pre post, s = pre +:+ sub +:+ post.

Fixpoint containsb (sub s : string) : bool :=
  String.prefix sub s ||
  match s with
  | EmptyString => false
  | String _ s' => containsb sub s'
  end.

End PyStr.

(** ** Module-level constants *)

Definition LT_LANGUAGES : gset string :=
  {[ "ar"; "az"; "bg"; "bn"; "ca"; "cs"; "da"; "de"; "el"; "en"; "eo";
     "es"; "et"; "fa"; "fi"; "fr"; "ga"; "he"; "hi"; "hu"; "id"; "it";
     "ja"; "ko"; "lt"; "lv"; "ms"; "nb"; "nl"; "pl"; "pt"; "ro"; "ru";
     "sk"; "sl"; "sq"; "sr"; "sv"; "th"; "tl"; "tr"; "uk"; "ur"; "vi";
     "zh"; "zt" ]}.


(** ** Exceptions

    An exception is its class name and its message. *)

Record exception := Exception { exc_type : string; exc_msg : string }.

Definition ValueError (msg : string) : exception := Exception "ValueError" msg.
Definition AttributeError (msg : string) : exception :=
  Exception "AttributeError" msg.

(** ** What the module runs on

    [Process] is the interpreter process: [os.environ], and the order in
    which it iterates over a set of strings (it depends on the hash seed,
    so only the members are known). [Collaborator] is the interface of
    [libretranslatepy]: the handle constructor [LibreTranslateAPI(url,
    api_key)], which may reject its arguments, and the remote operation
    [translate], which may raise and may change the state of the world. *)

Class Process := {
  environ : gmap string string;
  set_iter : gset string → list string;
  set_iter_perm : ∀ X, set_iter X ≡ₚ elements X;
}.

Class Collaborator := {
  World : Type;
  Client : Type;
  LibreTranslateAPI : string → option string → exception + Client;
  translate : Client → string → string → string → World → (exception + string) * World;
}.

(** [os.environ.get(name, None)], evaluated once at import. *)
Definition LT_ENDPOINT `{Process} : option string := environ !! "LT_ENDPOINT".
Definition LT_API_KEY `{Process} : option string := environ !! "LT_API_KEY".

(** ** Interpreter state and the monad of method bodies *)

Section Machine.
Context {collaborator : Collaborator}.

(** The attributes of a translator object; [None] is an attribute that
    has not been assigned yet. *)
Record instance := Instance {
  source_lang : option string;
  target_lang : option string;
  lt : option Client;
}.

(** One recorded call of [translate]. *)
Record call := Call {
  call_client : Client;
  call_text : string;
  call_source : string;
  call_target : string;
}.

Record state := State {
  self : instance;
  world : World;
  calls : list call;
}.

Definition M (A : Type) : Type := state → (exception + A) * state.

Definition ret {A} (a : A) : M A := λ st, (inr a, st).

Definition bind {A B} (m : M A) (k : A → M B) : M B :=
  λ st, match m st with
        | (inl e, st') => (inl e, st')
        | (inr a, st') => k a st'
        end.

Definition raise {A} (e : exception) : M A := λ st, (inl e, st).

(** The result of a pure library call that may raise. *)
Definition lift {A} (r : exception + A) : M A := λ st, (r, st).

Definition no_attribute (name : string) : exception :=
  AttributeError
    ("'LibreTranslateRTT' object has no attribute '" +:+ name +:+ "'").

(** [self.<name>] *)
Definition getattr {A} (name : string) (field : instance → option A) : M A :=
  λ st, match field (self st) with
        | Some v => (inr v, st)
        | None => (inl (no_attribute name), st)
        end.

(** [self.<name> = v] *)
Definition setattr (update : instance → instance) : M unit :=
  λ st, (inr tt, State (update (self st)) (world st) (calls st)).

Definition set_source_lang (v : string) (o : instance) : instance :=
  Instance (Some v) (target_lang o) (lt o).
Definition set_target_lang (v : string) (o : instance) : instance :=
  Instance (source_lang o) (Some v) (lt o).
Definition set_lt (v : Client) (o : instance) : instance :=
  Instance (source_lang o) (target_lang o) (Some v).

(** [client.translate(text, a, b)]: the call is recorded, then the
    collaborator answers or raises. *)
Definition call_translate (client : Client) (text a b : string) : M string :=
  λ st, let '(r, w) := translate client text a b (world st) in
        (r, State (self st) w (calls st ++ [Call client text a b])).

(** A freshly allocated object, before [__init__] runs. *)
Definition fresh : instance := Instance None None None.
End Machine.

#[global] Instance M_ret `{Collaborator} : MRet M := @ret _.
#[global] Instance M_bind `{Collaborator} : MBind M := λ A B k m, bind m k.

(** ** class RoundTripTranslator *)

Module RoundTripTranslator.
Section Methods.
Context {collaborator : Collaborator}.

Definition __init__ (source_lang target_lang : string) : M unit :=
  setattr (set_source_lang source_lang);;
  setattr (set_target_lang target_lang).
End Methods.
End RoundTripTranslator.

(** ** class LibreTranslateRTT(RoundTripTranslator) *)

Module LibreTranslateRTT.
Section Methods.
Context {process : Process} {collaborator : Collaborator}.

Definition url_missing : string :=
  "url must be given. Either set LT_ENDPOINT environment variable or pass a valid url.".

(** The f-string of the language error. *)
Definition invalid_language (invalid : string) : string :=
  "Invalid language '" +:+ invalid +:+ "', must be one of "
    +:+ PyStr.repr_set (set_iter LT_LANGUAGES).

(** The condition
    [(invalid := source_lang) not in LT_LANGUAGES or
     (invalid := target_lang) not in LT_LANGUAGES]:
    its truth value and the value [invalid] is left with. The second
    assignment only happens when the first test is false. *)
Definition language_check (source_lang target_lang : string) : bool * string :=
  let invalid := source_lang in
  if bool_decide (invalid ∉ LT_LANGUAGES) then (true, invalid)
  else let invalid := target_lang in
       (bool_decide (invalid ∉ LT_LANGUAGES), invalid).

Definition __init__ (target_lang source_lang : string)
    (url api_key : option string) : M unit :=
  match url with
  | None => raise (ValueError url_missing)
  | Some url =>
      let '(bad, invalid) := language_check source_lang target_lang in
      if bad then raise (ValueError (invalid_language invalid))
      else
        RoundTripTranslator.__init__ source_lang target_lang;;
        client ← lift (LibreTranslateAPI url api_key);
        setattr (set_lt client)
  end.

Definition rtt (text : string) : M string :=
  client ← getattr "lt" lt;
  a ← getattr "source_lang" source_lang;
  b ← getattr "target_lang" target_lang;
  text_t ← call_translate client text a b;
  client ← getattr "lt" lt;
  a ← getattr "target_lang" target_lang;
  b ← getattr "source_lang" source_lang;
  call_translate client text_t a b.
End Methods.
End LibreTranslateRTT.

(** The call [LibreTranslateRTT(target_lang, ...)]: an argument left out
    takes the default of the signature, then [__init__] runs on the object
    under construction, the [self] of the state. *)

Inductive kwarg (A : Type) : Type :=
  | Omitted
  | Given (a : A).
Arguments Omitted {A}.
Arguments Given {A} a.

Definition or_default {A} (d : A) (k : kwarg A) : A :=
  match k with
  | Omitted => d
  | Given a => a
  end.

Definition construct `{Process} `{Collaborator} (target_lang : string)
    (source_lang : kwarg string) (url api_key : kwarg (option string)) : M unit :=
  LibreTranslateRTT.__init__ target_lang
    (or_default "en" source_lang)
    (or_default LT_ENDPOINT url)
    (or_default LT_API_KEY api_key).

(** The block under [if __name__ == "__main__"]: a translator to French
    is built for the local endpoint, with the source language and the API
    key left to their defaults, and the round trip of one sentence is
    printed. The value is the text handed to [print]. *)
Definition main `{Process} `{Collaborator} : M string :=
  construct "fr" Omitted (Given (Some "http://localhost:5000")) Omitted;;
  LibreTranslateRTT.rtt "Hello, world!".

(** ** Vocabulary of the properties *)

Section Vocabulary.
Context {collaborator : Collaborator}.

(** An object whose three attributes are assigned, as [__init__] leaves
    it. *)
Definition ready (source target : string) (client : Client) : instance :=
  Instance (Some source) (Some target) (Some client).

(** [m] never assigns an attribute of [self]. *)
Definition keeps_self {A} (m : M A) : Prop :=
  ∀ st, self (m st).2 = self st.

(** [m] neither calls [translate] nor touches the world. *)
Definition silent {A} (m : M A) : Prop :=
  ∀ st, world (m st).2 = world st ∧ calls (m st).2 = calls st.

(** The translate operation of [client] is the function [f] of its
    three arguments, whatever the state of the world. *)
Definition computes (client : Client)
    (f : string → string → string → exception + string) : Prop :=
  ∀ text a b w, (translate client text a b w).1 = f text a b.
End Vocabulary.

(** A language code as the set prints it. *)
Definition quoted (code : string) : string := "'" +:+ code +:+ "'".

(** A lower-case ASCII letter, and a string made of exactly two. *)
Definition lowercase (c : ascii) : bool :=
  ((97 <=? N_of_ascii c) && (N_of_ascii c <=? 122))%N.

Definition two_lowercase (s : string) : bool :=
  match s with
  | String a (String b EmptyString) => lowercase a && lowercase b
  | _ => false
  end.

(** Membership in a concrete set, by evaluation. *)
Ltac by_evaluation := apply (bool_decide_unpack _); vm_compute; exact I.

(** ** Test doubles

    A process without environment variables whose sets iterate in the
    order of [elements], and two stub clients: one whose [translate] is
    the identity on the text, and one that counts its calls in the world,
    tags the text with the language it translates to, and raises on the
    call numbered [fail_at]. *)

Definition bare_process : Process :=
  {| environ := ∅; set_iter := elements;
     set_iter_perm := λ X, reflexivity (elements X) |}.

Definition connection_error : exception :=
  Exception "ConnectionError" "service unreachable".

Definition identity_client : Collaborator :=
  {| World := unit;
     Client := string * option string;
     LibreTranslateAPI := λ url api_key, inr (url, api_key);
     translate := λ _ text _ _ w, (inr text, w) |}.

Definition counting_client (fail_at : option nat) : Collaborator :=
  {| World := nat;
     Client := string * option string;
     LibreTranslateAPI := λ url api_key, inr (url, api_key);
     translate := λ _ text _ b n,
       (if bool_decide (fail_at = Some n) then inl connection_error
        else inr (text +:+ "/" +:+ b), S n) |}.

Definition tagging_client : Collaborator := counting_client None.
Definition failing_client : Collaborator := counting_client (Some 1).

Definition endpoint : string := "http://localhost:5000".

(** A client whose constructor refuses an empty url, and a client whose
    forward translation marks the text while the translation back to
    English takes the mark off. *)
Definition assertion_error : exception := Exception "AssertionError" "".

Definition strict_client : Collaborator :=
  {| World := unit;
     Client := string * option string;
     LibreTranslateAPI := λ url api_key,
       if bool_decide (url = "") then inl assertion_error
       else inr (url, api_key);
     translate := λ _ text _ _ w, (inr text, w) |}.

Definition unmark (text : string) : string :=
  match text with
  | String _ rest => rest
  | EmptyString => EmptyString
  end.

Definition marking_client : Collaborator :=
  {| World := unit;
     Client := string * option string;
     LibreTranslateAPI := λ url api_key, inr (url, api_key);
     translate := λ _ text _ b w,
       (inr (if bool_decide (b = "en") then unmark text
             else String "~" text), w) |}.

(** A process with both environment variables set. *)
Definition configured_process : Process :=
  {| environ := {[ "LT_ENDPOINT" := "http://localhost:5000";
                   "LT_API_KEY" := "secret" ]};
     set_iter := elements;
     set_iter_perm := λ X, reflexivity (elements X) |}.

(** * Properties *)

(** ** Strings *)

Module PyStrFacts.
Import PyStr.

Lemma app_cons a s t : String a s +:+ t = String a (s +:+ t).
Proof. reflexivity. Qed.

Lemma app_nil_r s : s +:+ "" = s.
Proof. induction s as [|a s IH]; [done|]. by rewrite app_cons, IH. Qed.

Lemma app_assoc s t u : (s +:+ t) +:+ u = s +:+ t +:+ u.
Proof. induction s as [|a s IH]; [done|]. by rewrite !app_cons, IH. Qed.

Lemma length_app s t : String.length (s +:+ t) = String.length s + String.length t.
Proof. induction s as [|a s IH]; [done|]. rewrite app_cons. simpl. by rewrite IH. Qed.

(** Cancellation of a common tail. *)
Lemma app_inj_r s t u : s +:+ u = t +:+ u → s = t.
Proof.
  revert t. induction s as [|a s IH]; intros [|b t] Heq; [done| | |].
  - apply (f_equal String.length) in Heq.
    rewrite !length_app in Heq. simpl in Heq. lia.
  - apply (f_equal String.length) in Heq.
    rewrite !length_app in Heq. simpl in Heq. lia.
  - rewrite !app_cons in Heq. injection Heq as -> Heq. f_equal. by apply IH.
Qed.

Lemma contains_refl s : contains s s.
Proof. exists "", "". by rewrite app_nil_r. Qed.

Lemma contains_app_l sub s t : contains sub s → contains sub (s +:+ t).
Proof.
  intros (pre & post & ->). exists pre, (post +:+ t).
  by rewrite !app_assoc.
Qed.

Lemma contains_app_r sub s t : contains sub t → contains sub (s +:+ t).
Proof.
  intros (pre & post & ->). exists (s +:+ pre), post.
  by rewrite !app_assoc.
Qed.

Lemma contains_join sep x l : x ∈ l → contains x (join sep l).
Proof.
  induction l as [|y l IH]; [by intros ?%elem_of_nil|].
  intros [->|Hin]%elem_of_cons.
  - destruct l; [apply contains_refl|]. apply contains_app_l, contains_refl.
  - destruct l as [|z l]; [by apply elem_of_nil in Hin|].
    change (contains x (y +:+ sep +:+ join sep (z :: l))).
    by apply contains_app_r, contains_app_r, IH.
Qed.

Lemma contains_repr_set x items : x ∈ items → contains (repr x) (repr_set items).
Proof.
  intros Hin. destruct items as [|y items]; [by apply elem_of_nil in Hin|].
  unfold repr_set. apply contains_app_r, contains_app_l, contains_join.
  by apply list_elem_of_fmap_2.
Qed.

Lemma prefix_spec sub s : String.prefix sub s = true ↔ ∃ post, s = sub +:+ post.
Proof.
  revert s. induction sub as [|a sub IH]; intros [|b s]; simpl.
  - split; [by exists ""|done].
  - split; [by exists (String b s)|done].
  - split; [done|]. by intros [post Heq].
  - destruct (ascii_dec a b) as [->|Hne].
    + rewrite IH. split; intros [post Heq]; exists post.
      * by rewrite app_cons, <-Heq.
      * rewrite app_cons in Heq. by injection Heq.
    + split; [done|]. intros [post Heq]. rewrite app_cons in Heq.
      injection Heq as ??. congruence.
Qed.

(** [containsb] decides [contains]. *)
Lemma containsb_spec sub s : containsb sub s = true ↔ contains sub s.
Proof.
  induction s as [|b s IH].
  - cbn [containsb]. rewrite orb_false_r, prefix_spec. split.
    + intros [post ->]. by exists "", post.
    + intros ([|a pre] & post & Heq); [by exists post|].
      by rewrite app_cons in Heq.
  - cbn [containsb]. rewrite orb_true_iff, prefix_spec, IH. split.
    + intros [[post ->]|(pre & post & ->)].
      * by exists "", post.
      * by exists (String b pre), post.
    + intros ([|a pre] & post & Heq).
      * left. by exists post.
      * right. rewrite app_cons in Heq. injection Heq as -> ->.
        by exists pre, post.
Qed.

End PyStrFacts.

(** ** The monad: what a computation leaves alone *)

Section Frames.
Context {collaborator : Collaborator}.

Lemma keeps_self_bind {A B} (m : M A) (k : A → M B) :
  keeps_self m → (∀ a, keeps_self (k a)) → keeps_self (m ≫= k).
Proof.
  intros Hm Hk st. unfold mbind, M_bind, bind.
  specialize (Hm st). destruct (m st) as [[e|a] st']; simpl in *; [done|].
  by rewrite Hk.
Qed.

Lemma keeps_self_getattr {A} name (field : instance → option A) :
  keeps_self (getattr name field).
Proof. intros st. unfold getattr. by destruct (field (self st)). Qed.

Lemma keeps_self_call_translate client text a b :
  keeps_self (call_translate client text a b).
Proof.
  intros st. unfold call_translate.
  by destruct (translate client text a b (world st)).
Qed.

Lemma silent_bind {A B} (m : M A) (k : A → M B) :
  silent m → (∀ a, silent (k a)) → silent (m ≫= k).
Proof.
  intros Hm Hk st. unfold mbind, M_bind, bind.
  specialize (Hm st). destruct (m st) as [[e|a] st']; simpl in *; [done|].
  destruct (Hk a st') as [-> ->]. done.
Qed.

Lemma silent_raise {A} e : silent (raise (A:=A) e).
Proof. done. Qed.

Lemma silent_lift {A} (r : exception + A) : silent (lift r).
Proof. done. Qed.

Lemma silent_setattr update : silent (setattr update).
Proof. done. Qed.
End Frames.

Create HintDb frame discriminated.
#[export] Hint Resolve keeps_self_getattr keeps_self_call_translate
  silent_raise silent_lift silent_setattr : frame.

(** ** The constructor and [rtt] *)

Section Properties.
Context {process : Process} {collaborator : Collaborator}.

Import LibreTranslateRTT.

(** [rtt] on a ready object, by the outcome of the first call. *)
Lemma rtt_ready source target client text w log :
  rtt text (State (ready source target client) w log) =
  match translate client text source target w with
  | (inl e, w1) =>
      (inl e, State (ready source target client) w1
                (log ++ [Call client text source target]))
  | (inr text_t, w1) =>
      ((translate client text_t target source w1).1,
       State (ready source target client)
         (translate client text_t target source w1).2
         (log ++ [Call client text source target;
                  Call client text_t target source]))
  end.
Proof.
  unfold rtt, mbind, M_bind, bind, getattr, call_translate. simpl.
  destruct (translate client text source target w) as [[e|text_t] w1];
    simpl; [done|].
  destruct (translate client text_t target source w1) as [r w2]; simpl.
  by rewrite <-app_assoc.
Qed.

Lemma keeps_self_rtt text : keeps_self (rtt text).
Proof.
  unfold rtt.
  repeat first [apply keeps_self_bind; [|intros ?] | solve [auto with frame]].
Qed.

Lemma silent_init target source url api_key :
  silent (__init__ target source url api_key).
Proof.
  unfold __init__. destruct url as [url|]; [|apply silent_raise].
  destruct (language_check source target) as [[] invalid]; cbv beta iota;
    [apply silent_raise|].
  unfold RoundTripTranslator.__init__.
  repeat first [apply silent_bind; [|intros ?] | solve [auto with frame]].
Qed.

Lemma language_check_ok source target :
  source ∈ LT_LANGUAGES → target ∈ LT_LANGUAGES →
  language_check source target = (false, target).
Proof.
  intros Hs Ht. unfold language_check.
  rewrite bool_decide_eq_false_2 by (by intros []).
  by rewrite bool_decide_eq_false_2 by (by intros []).
Qed.

Lemma language_check_source source target :
  source ∉ LT_LANGUAGES → language_check source target = (true, source).
Proof. intros Hs. unfold language_check. by rewrite bool_decide_eq_true_2. Qed.

Lemma language_check_target source target :
  source ∈ LT_LANGUAGES → target ∉ LT_LANGUAGES →
  language_check source target = (true, target).
Proof.
  intros Hs Ht. unfold language_check.
  rewrite bool_decide_eq_false_2 by (by intros []).
  by rewrite bool_decide_eq_true_2.
Qed.

(** A successful [__init__] went through every test and assignment. *)
Lemma init_success target source url api_key st st' :
  __init__ target source url api_key st = (inr (), st') →
  ∃ u client,
    url = Some u ∧ source ∈ LT_LANGUAGES ∧ target ∈ LT_LANGUAGES ∧
    LibreTranslateAPI u api_key = inr client ∧
    self st' = ready source target client.
Proof.
  unfold __init__. destruct url as [u|]; [|done].
  destruct (decide (source ∈ LT_LANGUAGES)) as [Hs|Hs];
    [|by rewrite language_check_source].
  destruct (decide (target ∈ LT_LANGUAGES)) as [Ht|Ht];
    [|by rewrite language_check_target].
  rewrite language_check_ok by done.
  unfold RoundTripTranslator.__init__, mbind, M_bind, bind, setattr, lift.
  simpl. destruct (LibreTranslateAPI u api_key) as [e|client] eqn:Hc; [done|].
  intros [= <-]. by exists u, client.
Qed.
(** *** The language error message *)

Lemma repr_language code : code ∈ LT_LANGUAGES → PyStr.repr code = quoted code.
Proof.
  intros Hin%elem_of_elements%list_elem_of_In.
  assert (forallb (λ c, String.eqb (PyStr.repr c) (quoted c))
            (elements LT_LANGUAGES) = true) as Hall by (vm_compute; reflexivity).
  rewrite forallb_forall in Hall. by apply String.eqb_eq, Hall.
Qed.

Lemma invalid_language_names invalid :
  PyStr.contains invalid (invalid_language invalid).
Proof.
  unfold invalid_language.
  apply PyStrFacts.contains_app_r, PyStrFacts.contains_app_l,
    PyStrFacts.contains_refl.
Qed.

Lemma invalid_language_lists invalid code :
  code ∈ LT_LANGUAGES → PyStr.contains (quoted code) (invalid_language invalid).
Proof.
  intros Hin. rewrite <-(repr_language code Hin). unfold invalid_language.
  do 3 apply PyStrFacts.contains_app_r.
  apply PyStrFacts.contains_repr_set.
  by rewrite set_iter_perm, elem_of_elements.
Qed.

Lemma invalid_language_inj a b : invalid_language a = invalid_language b → a = b.
Proof.
  unfold invalid_language. intros Heq%(inj (String.app _)).
  by apply PyStrFacts.app_inj_r in Heq.
Qed.

Lemma LT_LANGUAGES_size : size LT_LANGUAGES = 46.
Proof. by vm_compute. Qed.

Lemma init_source_rejected target source url api_key st :
  source ∉ LT_LANGUAGES →
  __init__ target source (Some url) api_key st =
    (inl (ValueError (invalid_language source)), st).
Proof. intros Hs. unfold __init__. by rewrite language_check_source. Qed.

Lemma init_target_rejected target source url api_key st :
  source ∈ LT_LANGUAGES → target ∉ LT_LANGUAGES →
  __init__ target source (Some url) api_key st =
    (inl (ValueError (invalid_language target)), st).
Proof. intros Hs Ht. unfold __init__. by rewrite language_check_target. Qed.

(** *** [rtt] *)

(** C1. On an object with source language [source] and target language
    [target], when the first call [translate(text, source, target)]
    returns [text_t], [rtt(text)] issues exactly two calls, that one and
    then [translate(text_t, target, source)], and its outcome is the
    outcome of the second call. *)
Theorem rtt_two_calls source target client text text_t w w1 log :
  translate client text source target w = (inr text_t, w1) →
  rtt text (State (ready source target client) w log) =
    ((translate client text_t target source w1).1,
     State (ready source target client)
       (translate client text_t target source w1).2
       (log ++ [Call client text source target;
                Call client text_t target source])).
Proof. intros Hfirst. by rewrite rtt_ready, Hfirst. Qed.

(** C2. When [translate] is the identity on its text argument,
    [rtt(text)] returns [text]. *)
Theorem rtt_identity source target client text w log :
  (∀ t a b w', (translate client t a b w').1 = inr t) →
  (rtt text (State (ready source target client) w log)).1 = inr text.
Proof.
  intros Hid. rewrite rtt_ready.
  pose proof (Hid text source target w) as Hfirst.
  destruct (translate client text source target w) as [[e|text_t] w1];
    simpl in Hfirst; [done|].
  injection Hfirst as ->. apply Hid.
Qed.

(** C3. An error raised by the first call is the outcome of [rtt], and
    the second call is not made; an error raised by the second call is
    the outcome of [rtt] as well. Neither is caught, retried or
    changed. *)
Theorem rtt_propagates source target client text w log :
  (∀ e w1,
     translate client text source target w = (inl e, w1) →
     rtt text (State (ready source target client) w log) =
       (inl e, State (ready source target client) w1
                 (log ++ [Call client text source target]))) ∧
  (∀ text_t w1 e w2,
     translate client text source target w = (inr text_t, w1) →
     translate client text_t target source w1 = (inl e, w2) →
     rtt text (State (ready source target client) w log) =
       (inl e, State (ready source target client) w2
                 (log ++ [Call client text source target;
                          Call client text_t target source]))).
Proof.
  split.
  - intros e w1 Hfirst. by rewrite rtt_ready, Hfirst.
  - intros text_t w1 e w2 Hfirst Hsecond.
    by rewrite rtt_ready, Hfirst, Hsecond.
Qed.

(** C7. A call of [rtt], whether it returns or raises, leaves the
    attributes [source_lang], [target_lang] and [lt] of the object as
    they were. *)
Theorem rtt_keeps_instance text st : self (rtt text st).2 = self st.
Proof. apply keeps_self_rtt. Qed.

(** C10. With a translate operation that is a function of its
    arguments, [rtt] returns the same outcome for the same text on
    objects with the same source and target language, whatever the state
    of the world and the calls made before. *)
Theorem rtt_deterministic f source target client1 client2 text w1 w2 log1 log2 :
  computes client1 f → computes client2 f →
  (rtt text (State (ready source target client1) w1 log1)).1 =
  (rtt text (State (ready source target client2) w2 log2)).1.
Proof.
  intros Hf1 Hf2. rewrite !rtt_ready.
  pose proof (Hf1 text source target w1) as H1.
  pose proof (Hf2 text source target w2) as H2.
  destruct (translate client1 text source target w1) as [[e1|t1] w1'],
           (translate client2 text source target w2) as [[e2|t2] w2'];
    simpl in *; [congruence..|].
  assert (t1 = t2) as -> by congruence.
  by rewrite Hf1, Hf2.
Qed.

(** *** The constructor *)

(** C4, as amended. The supported set has 46 codes. For a string
    outside it, [__init__] with a url raises the language error that
    names this string when it is [source_lang], and when it is
    [target_lang] and [source_lang] is supported; the message holds the
    string and every supported code. *)
Theorem init_rejects_unsupported lang other url api_key st :
  lang ∉ LT_LANGUAGES →
  size LT_LANGUAGES = 46 ∧
  __init__ other lang (Some url) api_key st =
    (inl (ValueError (invalid_language lang)), st) ∧
  (other ∈ LT_LANGUAGES →
   __init__ lang other (Some url) api_key st =
     (inl (ValueError (invalid_language lang)), st)) ∧
  PyStr.contains lang (invalid_language lang) ∧
  (∀ code, code ∈ LT_LANGUAGES →
           PyStr.contains (quoted code) (invalid_language lang)).
Proof.
  intros Hlang. split_and!.
  - apply LT_LANGUAGES_size.
  - by apply init_source_rejected.
  - intros Hother. by apply init_target_rejected.
  - apply invalid_language_names.
  - intros code. apply invalid_language_lists.
Qed.

(** C5, as amended. With [url] being [None], passed as such or left out
    while the environment has no [LT_ENDPOINT], construction raises the
    missing-url error whatever the language codes are, and leaves the
    world and the record of calls as they were. *)
Theorem init_requires_url target source api_key st :
  __init__ target source None api_key st = (inl (ValueError url_missing), st) ∧
  (∀ source_lang api_key,
     construct target source_lang (Given None) api_key st =
       (inl (ValueError url_missing), st)) ∧
  (environ !! "LT_ENDPOINT" = None →
   ∀ source_lang api_key,
     construct target source_lang Omitted api_key st =
       (inl (ValueError url_missing), st)).
Proof.
  split_and!; [done|done|].
  intros Henv source_lang key. unfold construct, LT_ENDPOINT. simpl.
  by rewrite Henv.
Qed.

(** C6, as amended. The supported set has 46 codes. With both language
    codes in it and a url the client constructor accepts, [__init__]
    succeeds and the object holds the two codes as given, and the
    client. *)
Theorem init_accepts_supported target source url api_key client st :
  source ∈ LT_LANGUAGES → target ∈ LT_LANGUAGES →
  LibreTranslateAPI url api_key = inr client →
  size LT_LANGUAGES = 46 ∧
  __init__ target source (Some url) api_key st =
    (inr (), State (ready source target client) (world st) (calls st)).
Proof.
  intros Hs Ht Hc. split; [apply LT_LANGUAGES_size|].
  unfold __init__. rewrite language_check_ok by done.
  unfold RoundTripTranslator.__init__, mbind, M_bind, bind, setattr, lift.
  simpl. by rewrite Hc.
Qed.

(** C8. [__init__] makes no call of [translate] and leaves the world as
    it is; when it succeeds, both codes passed the membership test and
    the object holds them and a client made from [url] and [api_key]. *)
Theorem init_no_network target source url api_key st :
  calls (__init__ target source url api_key st).2 = calls st ∧
  world (__init__ target source url api_key st).2 = world st ∧
  ((__init__ target source url api_key st).1 = inr () →
   ∃ u client,
     url = Some u ∧ source ∈ LT_LANGUAGES ∧ target ∈ LT_LANGUAGES ∧
     LibreTranslateAPI u api_key = inr client ∧
     self (__init__ target source url api_key st).2 =
       ready source target client).
Proof.
  destruct (silent_init target source url api_key st) as [Hw Hc].
  split_and!; [done|done|].
  destruct (__init__ target source url api_key st) as [r st'] eqn:Hrun.
  simpl. intros ->. by apply init_success in Hrun.
Qed.

(** C9. When both codes are outside the supported set, the error names
    [source_lang], the first one tested; its message is not the one that
    would name [target_lang]. *)
Theorem init_reports_source target source url api_key st :
  source ∉ LT_LANGUAGES → target ∉ LT_LANGUAGES →
  __init__ target source (Some url) api_key st =
    (inl (ValueError (invalid_language source)), st) ∧
  (source ≠ target → invalid_language source ≠ invalid_language target).
Proof.
  intros Hs _. split; [by apply init_source_rejected|].
  intros Hne Heq. by apply Hne, invalid_language_inj.
Qed.
End Properties.

(** ** The properties at the test doubles *)

Section AtTaggingClient.
Import LibreTranslateRTT.
Local Existing Instance tagging_client.

Let handle : Client := (endpoint, None).

Lemma rtt_two_calls_witness :
  rtt "hello" (State (ready "en" "fr" handle) 0 []) =
  (inr "hello/fr/en",
   State (ready "en" "fr" handle) 2
     [Call handle "hello" "en" "fr"; Call handle "hello/fr" "fr" "en"]).
Proof.
  exact (rtt_two_calls "en" "fr" handle "hello" "hello/fr" 0 1 [] eq_refl).
Defined.

Lemma rtt_deterministic_witness :
  (rtt "hello" (State (ready "en" "fr" handle) 0 [])).1 =
  (rtt "hello"
     (State (ready "en" "fr" ("https://example.org", Some "key")) 7
        [Call handle "bonjour" "fr" "en"])).1.
Proof.
  apply (rtt_deterministic (λ text _ b, inr (text +:+ "/" +:+ b)));
    intros text a b w; reflexivity.
Defined.
End AtTaggingClient.

Section AtFailingClient.
Import LibreTranslateRTT.
Local Existing Instance failing_client.

Let handle : Client := (endpoint, None).

Lemma rtt_propagates_witness :
  rtt "hello" (State (ready "en" "fr" handle) 1 []) =
  (inl connection_error,
   State (ready "en" "fr" handle) 2 [Call handle "hello" "en" "fr"]) ∧
  rtt "hello" (State (ready "en" "fr" handle) 0 []) =
  (inl connection_error,
   State (ready "en" "fr" handle) 2
     [Call handle "hello" "en" "fr"; Call handle "hello/fr" "fr" "en"]).
Proof.
  split.
  - apply (proj1 (rtt_propagates "en" "fr" handle "hello" 1 [])).
    reflexivity.
  - apply (proj2 (rtt_propagates "en" "fr" handle "hello" 0 []) "hello/fr" 1);
      reflexivity.
Defined.
End AtFailingClient.

Section AtIdentityClient.
Import LibreTranslateRTT.
Local Existing Instance bare_process.
Local Existing Instance identity_client.

Let handle : Client := (endpoint, None).
Let start : state := State fresh () [].

Lemma rtt_identity_witness :
  (rtt "Hello, world!" (State (ready "en" "fr" handle) () [])).1 =
  inr "Hello, world!".
Proof. apply rtt_identity. intros t a b w'. reflexivity. Defined.

Lemma init_rejects_unsupported_witness :
  ("xx" ∉ LT_LANGUAGES) ∧
  __init__ "en" "xx" (Some endpoint) None start =
    (inl (ValueError (invalid_language "xx")), start) ∧
  __init__ "xx" "en" (Some endpoint) None start =
    (inl (ValueError (invalid_language "xx")), start) ∧
  PyStr.contains "xx" (invalid_language "xx") ∧
  PyStr.contains "'zh'" (invalid_language "xx").
Proof.
  assert ("xx" ∉ LT_LANGUAGES) as Hxx by by_evaluation.
  assert ("en" ∈ LT_LANGUAGES) as Hen by by_evaluation.
  assert ("zh" ∈ LT_LANGUAGES) as Hzh by by_evaluation.
  destruct (init_rejects_unsupported "xx" "en" endpoint None start Hxx)
    as (_ & Hsource & Htarget & Hname & Hlist).
  split_and!; [exact Hxx|exact Hsource|exact (Htarget Hen)|exact Hname|].
  exact (Hlist "zh" Hzh).
Defined.

Lemma init_requires_url_witness :
  construct "fr" Omitted Omitted Omitted start =
  (inl (ValueError url_missing), start).
Proof. apply (init_requires_url "fr" "en" None start). reflexivity. Defined.

Lemma init_accepts_supported_witness :
  __init__ "fr" "en" (Some endpoint) None start =
  (inr (), State (ready "en" "fr" handle) () []).
Proof.
  apply (init_accepts_supported "fr" "en" endpoint None handle start);
    [by_evaluation|by_evaluation|reflexivity].
Defined.

Lemma init_no_network_witness :
  ∃ u client,
    Some endpoint = Some u ∧ "en" ∈ LT_LANGUAGES ∧ "fr" ∈ LT_LANGUAGES ∧
    LibreTranslateAPI u None = inr client ∧
    self (__init__ "fr" "en" (Some endpoint) None start).2 =
      ready "en" "fr" client.
Proof.
  apply (init_no_network "fr" "en" (Some endpoint) None start).
  vm_compute. reflexivity.
Defined.

Lemma init_reports_source_witness :
  __init__ "xx" "yy" (Some endpoint) None start =
    (inl (ValueError (invalid_language "yy")), start) ∧
  invalid_language "yy" ≠ invalid_language "xx".
Proof.
  destruct (init_reports_source "xx" "yy" endpoint None start)
    as [Hrun Hmsg]; [by_evaluation|by_evaluation|].
  split; [exact Hrun|]. apply Hmsg. discriminate.
Defined.

(** *** Where the claims as written fail *)

(** C4: the set has 46 codes, not 44; and with ["xx"] as target language
    next to the unsupported source language ["yy"], the message names
    ["yy"] and does not hold ["xx"]. *)
Lemma init_names_first_invalid_only :
  size LT_LANGUAGES = 46 ∧ ("xx" ∉ LT_LANGUAGES) ∧
  __init__ "xx" "yy" (Some endpoint) None start =
    (inl (ValueError (invalid_language "yy")), start) ∧
  ¬ PyStr.contains "xx" (invalid_language "yy").
Proof.
  split_and!; [by vm_compute|by_evaluation|by vm_compute|].
  rewrite <-PyStrFacts.containsb_spec. by vm_compute.
Qed.

(** C5: an empty [url] passes the test for [None]; with an unsupported
    language the error is the language error, so the languages were
    tested. *)
Lemma init_empty_url_not_rejected :
  __init__ "fr" "xx" (Some "") None start =
    (inl (ValueError (invalid_language "xx")), start) ∧
  ValueError (invalid_language "xx") ≠ ValueError url_missing.
Proof. split; [by vm_compute|]. vm_compute. discriminate. Qed.

(** C6: the set has 46 codes, not 44; and the supported code ["en"] as
    source language does not make construction succeed when the target
    language is unsupported. *)
Lemma init_supported_needs_both :
  size LT_LANGUAGES = 46 ∧ "en" ∈ LT_LANGUAGES ∧
  __init__ "xx" "en" (Some endpoint) None start =
    (inl (ValueError (invalid_language "xx")), start).
Proof. split_and!; [by vm_compute|by_evaluation|by vm_compute]. Qed.
End AtIdentityClient.

(** * Further properties of the module *)

Section MoreProperties.
Context {process : Process} {collaborator : Collaborator}.

Import LibreTranslateRTT.

(** [__init__] past the test for a missing url, with both codes supported:
    the codes are stored, then the client constructor decides. *)
Lemma init_supported_run target source url api_key st :
  source ∈ LT_LANGUAGES → target ∈ LT_LANGUAGES →
  __init__ target source (Some url) api_key st =
  match LibreTranslateAPI url api_key with
  | inl e =>
      (inl e, State (Instance (Some source) (Some target) (lt (self st)))
                (world st) (calls st))
  | inr client =>
      (inr (), State (ready source target client) (world st) (calls st))
  end.
Proof.
  intros Hs Ht. unfold __init__. rewrite language_check_ok by done.
  unfold RoundTripTranslator.__init__, mbind, M_bind, bind, setattr, lift.
  simpl. by destruct (LibreTranslateAPI url api_key).
Qed.

Lemma supported_two_lowercase code :
  code ∈ LT_LANGUAGES → two_lowercase code = true.
Proof.
  intros Hin%elem_of_elements%list_elem_of_In.
  assert (forallb two_lowercase (elements LT_LANGUAGES) = true) as Hall
    by (vm_compute; reflexivity).
  rewrite forallb_forall in Hall. by apply Hall.
Qed.

Lemma en_supported : "en" ∈ LT_LANGUAGES.
Proof. by_evaluation. Qed.

Lemma fr_supported : "fr" ∈ LT_LANGUAGES.
Proof. by_evaluation. Qed.

(** The calls [rtt] adds on a ready object: the forward call, then at most
    one more. *)
Lemma rtt_ready_calls source target client text w log :
  ∃ rest,
    calls (rtt text (State (ready source target client) w log)).2 =
      (log ++ Call client text source target :: rest)%list ∧
    (length rest ≤ 1)%nat.
Proof.
  rewrite rtt_ready.
  destruct (translate client text source target w) as [[e|text_t] w1]; simpl.
  - exists []. split; [done|simpl; lia].
  - exists [Call client text_t target source]. split; [done|simpl; lia].
Qed.

(** ** class RoundTripTranslator *)

(** X1. The base constructor tests nothing: for any two strings it returns
    normally, stores them as given, and leaves the client attribute, the
    world and the record of calls as they were; a second run replaces both
    codes. *)
Theorem base_init_stores_unchecked source target source' target' st :
  RoundTripTranslator.__init__ source target st =
    (inr (), State (Instance (Some source) (Some target) (lt (self st)))
               (world st) (calls st)) ∧
  (RoundTripTranslator.__init__ source target;;
   RoundTripTranslator.__init__ source' target') st =
    RoundTripTranslator.__init__ source' target' st.
Proof. done. Qed.

(** ** The constructor of LibreTranslateRTT *)

(** X2. Every outcome of [__init__] is one of five: the missing-url error;
    the language error naming [source_lang]; the language error naming
    [target_lang], only when [source_lang] is supported; the error of the
    client constructor, only when both codes are supported; or success,
    only when the url is given, both codes are supported and the client
    constructor accepts. *)
Theorem init_outcomes target source url api_key st :
  match (__init__ target source url api_key st).1 with
  | inr _ =>
      ∃ u client, url = Some u ∧ source ∈ LT_LANGUAGES ∧
        target ∈ LT_LANGUAGES ∧ LibreTranslateAPI u api_key = inr client
  | inl e =>
      (url = None ∧ e = ValueError url_missing) ∨
      (is_Some url ∧ (source ∉ LT_LANGUAGES) ∧
       e = ValueError (invalid_language source)) ∨
      (is_Some url ∧ source ∈ LT_LANGUAGES ∧ (target ∉ LT_LANGUAGES) ∧
       e = ValueError (invalid_language target)) ∨
      (∃ u, url = Some u ∧ source ∈ LT_LANGUAGES ∧ target ∈ LT_LANGUAGES ∧
            LibreTranslateAPI u api_key = inl e)
  end.
Proof.
  destruct url as [u|]; [|left; done].
  destruct (decide (source ∈ LT_LANGUAGES)) as [Hs|Hs].
  - destruct (decide (target ∈ LT_LANGUAGES)) as [Ht|Ht].
    + rewrite init_supported_run by done.
      destruct (LibreTranslateAPI u api_key) as [e|client] eqn:Hc; simpl.
      * do 3 right. exists u. repeat split; assumption.
      * exists u, client. repeat split; assumption.
    + rewrite init_target_rejected by done. simpl.
      right; right; left. repeat split; eauto.
  - rewrite init_source_rejected by done. simpl.
    right; left. repeat split; eauto.
Qed.

(** X3. With both codes supported, an error of the client constructor is
    the outcome of [__init__] as it is; by then the two codes are stored and
    the client attribute is not, and no call was made. *)
Theorem init_client_error target source url api_key e st :
  source ∈ LT_LANGUAGES → target ∈ LT_LANGUAGES →
  LibreTranslateAPI url api_key = inl e →
  __init__ target source (Some url) api_key st =
    (inl e, State (Instance (Some source) (Some target) (lt (self st)))
              (world st) (calls st)).
Proof. intros Hs Ht Hc. by rewrite init_supported_run, Hc. Qed.

(** X4. With [source_lang] left out the source language is English: an
    unsupported target is the code the error names, and with a supported
    target and a client the constructor accepts, the object translates
    from ["en"]. *)
Theorem construct_default_source target url api_key u st :
  or_default LT_ENDPOINT url = Some u →
  (target ∉ LT_LANGUAGES →
   construct target Omitted url api_key st =
     (inl (ValueError (invalid_language target)), st)) ∧
  (∀ client,
     target ∈ LT_LANGUAGES →
     LibreTranslateAPI u (or_default LT_API_KEY api_key) = inr client →
     construct target Omitted url api_key st =
       (inr (), State (ready "en" target client) (world st) (calls st))).
Proof.
  intros Hurl. unfold construct. rewrite Hurl. cbn [or_default]. split.
  - intros Ht. apply init_target_rejected; [apply en_supported|done].
  - intros client Ht Hc.
    rewrite init_supported_run by (done || apply en_supported).
    by rewrite Hc.
Qed.

(** X5. With [url] left out and [LT_ENDPOINT] set in the environment, the
    client is built for that endpoint, with the API key given or else the
    one of [LT_API_KEY], which may be absent. *)
Theorem construct_from_environment target source_lang api_key u client st :
  environ !! "LT_ENDPOINT" = Some u →
  or_default "en" source_lang ∈ LT_LANGUAGES → target ∈ LT_LANGUAGES →
  LibreTranslateAPI u (or_default (environ !! "LT_API_KEY") api_key) = inr client →
  construct target source_lang Omitted api_key st =
    (inr (), State (ready (or_default "en" source_lang) target client)
               (world st) (calls st)).
Proof.
  intros Henv Hs Ht Hc. unfold construct, LT_ENDPOINT, LT_API_KEY.
  cbn [or_default]. rewrite Henv, init_supported_run by done. by rewrite Hc.
Qed.

(** X6. Both constructor errors are [ValueError]s, and their messages
    never coincide, whatever the rejected string and the order in which
    the set is printed: the message tells a missing url from a bad
    language code. *)
Theorem init_errors_distinct invalid :
  exc_type (ValueError (invalid_language invalid)) =
    exc_type (ValueError url_missing) ∧
  invalid_language invalid ≠ url_missing.
Proof.
  split; [done|]. unfold invalid_language, url_missing. intros Heq.
  apply (f_equal (λ s, match s with
                       | String c _ => c
                       | EmptyString => "000"%char
                       end)) in Heq.
  vm_compute in Heq. discriminate.
Qed.

(** X7. Every supported code is two lower-case letters, and membership is
    exact: a string that is not two lower-case ASCII letters (empty,
    upper-case, a locale such as "pt-BR") is rejected as [source_lang], and
    as [target_lang] next to a supported source. *)
Theorem init_rejects_malformed lang other url api_key st :
  two_lowercase lang = false →
  __init__ other lang (Some url) api_key st =
    (inl (ValueError (invalid_language lang)), st) ∧
  (other ∈ LT_LANGUAGES →
   __init__ lang other (Some url) api_key st =
     (inl (ValueError (invalid_language lang)), st)).
Proof.
  intros Hbad.
  assert (lang ∉ LT_LANGUAGES) as Hlang.
  { intros Hin%supported_two_lowercase. congruence. }
  split.
  - by apply init_source_rejected.
  - intros Hother. by apply init_target_rejected.
Qed.
End MoreProperties.

Section RoundTripProperties.
Context {process : Process} {collaborator : Collaborator}.

Import LibreTranslateRTT.

(** ** [rtt] *)

(** X8. [rtt] never answers from memory: on a constructed object every
    invocation makes the forward call [translate(text, source, target)]
    first and at most one call after it, and the calls recorded before
    stay as they were. *)
Theorem rtt_always_calls source target client text w log :
  ∃ rest,
    calls (rtt text (State (ready source target client) w log)).2 =
      (log ++ Call client text source target :: rest)%list ∧
    (length rest ≤ 1)%nat.
Proof. apply rtt_ready_calls. Qed.

(** X9. [rtt] raises nothing of its own: on a constructed object, an error
    of [rtt] is the error the forward call raised, or the error the
    backward call raised after the forward call returned. *)
Theorem rtt_error_origin source target client text w log e :
  (rtt text (State (ready source target client) w log)).1 = inl e →
  (translate client text source target w).1 = inl e ∨
  ∃ text_t w1,
    translate client text source target w = (inr text_t, w1) ∧
    (translate client text_t target source w1).1 = inl e.
Proof.
  rewrite rtt_ready.
  destruct (translate client text source target w) as [[e1|text_t] w1]; simpl.
  - intros [= ->]. by left.
  - intros Hsecond. right. by exists text_t, w1.
Qed.

(** X10. For a client whose translate operation is a function [f] of its
    arguments, [rtt] is [f] forward then [f] backward with the two
    languages exchanged, and stops at the first error. *)
Theorem rtt_composes f source target client text w log :
  computes client f →
  (rtt text (State (ready source target client) w log)).1 =
    match f text source target with
    | inl e => inl e
    | inr text_t => f text_t target source
    end.
Proof.
  intros Hf. rewrite rtt_ready.
  pose proof (Hf text source target w) as Hfirst.
  destruct (translate client text source target w) as [[e|text_t] w1];
    simpl in *; rewrite <-Hfirst; [done|]. apply Hf.
Qed.

(** X11. When the backward translation undoes the forward one, the round
    trip returns the text it was given. *)
Theorem rtt_lossless f source target client text w log :
  computes client f →
  (∀ x y, f x source target = inr y → f y target source = inr x) →
  (∀ e, f text source target ≠ inl e) →
  (rtt text (State (ready source target client) w log)).1 = inr text.
Proof.
  intros Hf Hinv Hok. rewrite rtt_ready.
  pose proof (Hf text source target w) as Hfirst.
  destruct (translate client text source target w) as [[e|text_t] w1];
    simpl in *.
  - by destruct (Hok e).
  - rewrite Hf. by apply Hinv.
Qed.

(** X12. The object stays usable: after an invocation of [rtt], whether it
    returned or raised, the next invocation again starts with its forward
    call in the same direction, also for the same text. *)
Theorem rtt_again source target client text text' w log :
  ∃ rest,
    calls (rtt text'
             (rtt text (State (ready source target client) w log)).2).2 =
      (calls (rtt text (State (ready source target client) w log)).2 ++
       Call client text' source target :: rest)%list ∧
    (length rest ≤ 1)%nat.
Proof.
  pose proof (keeps_self_rtt text (State (ready source target client) w log))
    as Hself.
  destruct (rtt text (State (ready source target client) w log)) as [r st1].
  simpl in *. destruct st1 as [o w1 log1]. simpl in Hself. subst o.
  apply rtt_ready_calls.
Qed.

(** ** Construction followed by [rtt] *)

(** X13. After a successful construction the object has all [rtt] reads:
    [rtt] does what it does on the object holding the source language
    given, or ["en"], the target language and the client made by the
    client constructor, from the world and the record of calls that
    construction left untouched. *)
Theorem construct_then_rtt target source_lang url api_key text st st1 :
  construct target source_lang url api_key st = (inr (), st1) →
  ∃ u client,
    or_default LT_ENDPOINT url = Some u ∧
    LibreTranslateAPI u (or_default LT_API_KEY api_key) = inr client ∧
    rtt text st1 =
      rtt text (State (ready (or_default "en" source_lang) target client)
                  (world st) (calls st)).
Proof.
  unfold construct. intros Hrun.
  destruct (silent_init target (or_default "en" source_lang)
              (or_default LT_ENDPOINT url) (or_default LT_API_KEY api_key) st)
    as [Hw Hc].
  rewrite Hrun in Hw, Hc. simpl in Hw, Hc.
  apply init_success in Hrun as (u & client & Hurl & _ & _ & Hclient & Hself).
  exists u, client. split; [done|]. split; [done|].
  destruct st1 as [o w1 log1]. simpl in *. by subst.
Qed.

(** X14. The example at the end of the module passes both tests of the
    constructor in every environment: it ends with the error of the client
    constructor, or it is the round trip of its sentence from ["en"] to
    ["fr"] and back, on the client for the local endpoint with the API key
    of the environment. *)
Theorem main_outcome st :
  match LibreTranslateAPI "http://localhost:5000" LT_API_KEY with
  | inl e => (main st).1 = inl e ∧ calls (main st).2 = calls st
  | inr client =>
      main st =
        rtt "Hello, world!"
          (State (ready "en" "fr" client) (world st) (calls st))
  end.
Proof.
  unfold main, construct, mbind, M_bind, bind. cbn [or_default].
  rewrite init_supported_run by (apply en_supported || apply fr_supported).
  by destruct (LibreTranslateAPI "http://localhost:5000" LT_API_KEY).
Qed.
End RoundTripProperties.

(** ** The further properties at the test doubles *)

Section AtStrictClient.
Import LibreTranslateRTT.
Local Existing Instance bare_process.
Local Existing Instance strict_client.

Let start : state := State fresh () [].
Let half_built : state := State (Instance (Some "en") (Some "fr") None) () [].

Lemma init_client_error_witness :
  __init__ "fr" "en" (Some "") None start = (inl assertion_error, half_built).
Proof.
  apply (init_client_error "fr" "en" "" None assertion_error start);
    [by_evaluation|by_evaluation|reflexivity].
Defined.
End AtStrictClient.

Section AtConfiguredProcess.
Import LibreTranslateRTT.
Local Existing Instance configured_process.
Local Existing Instance identity_client.

Let start : state := State fresh () [].
Let handle : Client := (endpoint, Some "secret").
Let built : state := State (ready "en" "fr" handle) () [].

Lemma construct_default_source_witness :
  construct "xx" Omitted (Given (Some endpoint)) Omitted start =
    (inl (ValueError (invalid_language "xx")), start) ∧
  construct "fr" Omitted (Given (Some endpoint)) Omitted start =
    (inr (), built).
Proof.
  split.
  - apply (proj1 (construct_default_source "xx" (Given (Some endpoint))
                    Omitted endpoint start eq_refl)).
    by_evaluation.
  - apply (proj2 (construct_default_source "fr" (Given (Some endpoint))
                    Omitted endpoint start eq_refl));
      [by_evaluation|reflexivity].
Defined.

Lemma construct_from_environment_witness :
  construct "fr" Omitted Omitted Omitted start = (inr (), built).
Proof.
  apply (construct_from_environment "fr" Omitted Omitted endpoint
           handle start);
    [reflexivity|by_evaluation|by_evaluation|reflexivity].
Defined.
End AtConfiguredProcess.

Section AtIdentityClientAgain.
Import LibreTranslateRTT.
Local Existing Instance bare_process.
Local Existing Instance identity_client.

Let start : state := State fresh () [].
Let handle : Client := (endpoint, None).
Let built : state := State (ready "en" "fr" handle) () [].

Lemma init_rejects_malformed_witness :
  __init__ "fr" "EN" (Some endpoint) None start =
    (inl (ValueError (invalid_language "EN")), start) ∧
  __init__ "pt-BR" "en" (Some endpoint) None start =
    (inl (ValueError (invalid_language "pt-BR")), start).
Proof.
  split.
  - apply (proj1 (init_rejects_malformed "EN" "fr" endpoint None start
                    eq_refl)).
  - apply (proj2 (init_rejects_malformed "pt-BR" "en" endpoint None start
                    eq_refl)).
    by_evaluation.
Defined.

Lemma construct_then_rtt_witness :
  ∃ u client,
    or_default LT_ENDPOINT (Given (Some endpoint)) = Some u ∧
    LibreTranslateAPI u (or_default LT_API_KEY Omitted) = inr client ∧
    rtt "hello" built =
      rtt "hello" (State (ready (or_default "en" Omitted) "fr" client)
                     (world start) (calls start)).
Proof.
  apply (construct_then_rtt "fr" Omitted (Given (Some endpoint)) Omitted
           "hello" start built).
  vm_compute. reflexivity.
Defined.
End AtIdentityClientAgain.

Section AtFailingClientAgain.
Import LibreTranslateRTT.
Local Existing Instance failing_client.

Let handle : Client := (endpoint, None).

Lemma rtt_error_origin_witness :
  (translate handle "hello" "en" "fr" 1).1 = inl connection_error ∨
  ∃ text_t w1,
    translate handle "hello" "en" "fr" 1 = (inr text_t, w1) ∧
    (translate handle text_t "fr" "en" w1).1 = inl connection_error.
Proof.
  apply (rtt_error_origin "en" "fr" handle "hello" 1 [] connection_error).
  reflexivity.
Defined.
End AtFailingClientAgain.

Section AtTaggingClientAgain.
Import LibreTranslateRTT.
Local Existing Instance tagging_client.

Let handle : Client := (endpoint, None).

Lemma rtt_composes_witness :
  (rtt "hello" (State (ready "en" "fr" handle) 3 [])).1 = inr "hello/fr/en".
Proof.
  apply (rtt_composes (λ text _ b, inr (text +:+ "/" +:+ b))
           "en" "fr" handle "hello" 3 []).
  intros text a b w. reflexivity.
Defined.
End AtTaggingClientAgain.

Section AtMarkingClient.
Import LibreTranslateRTT.
Local Existing Instance marking_client.

Let handle : Client := (endpoint, None).

Lemma rtt_lossless_witness :
  (rtt "Hello, world!" (State (ready "en" "fr" handle) () [])).1 =
  inr "Hello, world!".
Proof.
  apply (rtt_lossless
           (λ text _ b, inr (if bool_decide (b = "en") then unmark text
                             else String "~" text))).
  - intros text a b w. reflexivity.
  - intros x y [= <-]. reflexivity.
  - intros e. discriminate.
Defined.
End AtMarkingClient.
